(** * Verification of volta's npm shim dispatch
    (crates/volta-core/src/run_package_global/npm.rs)

    The file embeds [check_npm_install], [command] and [execution_context]
    and the pieces of the surrounding crate they call. *)

From Stdlib Require Import String Ascii List Strings.Byte NArith Bool Lia.
Import ListNotations.
Open Scope bool_scope.

(* ------------------------------------------------------------------ *)
(** ** OsString, as the bytes of the platform string (Unix) *)

Definition OsString := list byte.

(** The bytes of a Rust [&str] literal. *)
Definition os (s : string) : OsString := list_byte_of_string s.

(** [OsString == &str]: byte-wise equality. *)
Definition os_eq (a : OsString) (s : string) : bool :=
  if list_eq_dec byte_eq_dec a (os s) then true else false.

Definition in_range (lo hi : N) (b : byte) : bool :=
  (lo <=? Byte.to_N b)%N && (Byte.to_N b <=? hi)%N.

(** Width of the UTF-8 sequence announced by a leading byte (0: never a
    leading byte). *)
Definition utf8_width (b0 : N) : nat :=
  if (b0 <=? 127)%N then 1
  else if (194 <=? b0)%N && (b0 <=? 223)%N then 2
  else if (224 <=? b0)%N && (b0 <=? 239)%N then 3
  else if (240 <=? b0)%N && (b0 <=? 244)%N then 4
  else 0.

(** Allowed range of the second byte (excludes overlong forms, surrogates
    and code points above U+10FFFF). *)
Definition utf8_second_range (b0 : N) : N * N :=
  if (b0 =? 224)%N then (160, 191)%N
  else if (b0 =? 237)%N then (128, 159)%N
  else if (b0 =? 240)%N then (144, 191)%N
  else if (b0 =? 244)%N then (128, 143)%N
  else (128, 191)%N.

(** Number of leading continuation bytes of [l], at most [k]. *)
Fixpoint count_cont (k : nat) (l : list byte) : nat :=
  match k, l with
  | O, _ => O
  | S k', b :: l' => if in_range 128 191 b then S (count_cont k' l') else O
  | S _, [] => O
  end.

(** Next chunk of a byte string, as [core::str::Utf8Chunks] sees it:
    [(true, n)] for a well-formed character of [n] bytes, [(false, n)] for
    an ill-formed sequence of [n] bytes (the maximal prefix of a well-formed
    sequence, at least one byte). *)
Definition utf8_next (bs : list byte) : bool * nat :=
  match bs with
  | [] => (true, O)
  | b0 :: rest =>
      let n0 := Byte.to_N b0 in
      match utf8_width n0 with
      | O => (false, 1)
      | 1 => (true, 1)
      | w =>
          let '(lo, hi) := utf8_second_range n0 in
          match rest with
          | [] => (false, 1)
          | b1 :: rest1 =>
              if negb (in_range lo hi b1) then (false, 1)
              else
                let c := count_cont (w - 2) rest1 in
                if Nat.eqb c (w - 2) then (true, w) else (false, 2 + c)
          end
      end
  end.

Fixpoint utf8_valid_fuel (fuel : nat) (bs : list byte) : bool :=
  match fuel, bs with
  | _, [] => true
  | O, _ :: _ => false
  | S f, _ :: _ =>
      let '(ok, n) := utf8_next bs in ok && utf8_valid_fuel f (skipn n bs)
  end.

Definition utf8_valid (bs : list byte) : bool := utf8_valid_fuel (length bs) bs.

(** U+FFFD REPLACEMENT CHARACTER, in UTF-8. *)
Definition replacement : list byte := [xef; xbf; xbd].

Fixpoint lossy_fuel (fuel : nat) (bs : list byte) : list byte :=
  match fuel, bs with
  | _, [] => []
  | O, _ :: _ => bs
  | S f, _ :: _ =>
      let '(ok, n) := utf8_next bs in
      (if ok then firstn n bs else replacement) ++ lossy_fuel f (skipn n bs)
  end.

(** [OsStr::to_str]: the string when the bytes are valid UTF-8. *)
Definition to_str (a : OsString) : option string :=
  if utf8_valid a then Some (string_of_list_byte a) else None.

(** [OsStr::to_string_lossy]: ill-formed sequences become U+FFFD. *)
Definition to_string_lossy (a : OsString) : string :=
  string_of_list_byte (lossy_fuel (length a) a).

(** [str::starts_with(char)] *)
Definition starts_with (s : string) (c : ascii) : bool :=
  match s with
  | EmptyString => false
  | String c0 _ => Ascii.eqb c0 c
  end.

(* ------------------------------------------------------------------ *)
(** ** Errors *)

Inductive ErrorKind :=
| BinaryExecError
| NoPlatform
| ParseToolSpecError (tool_spec : string)
(** an error raised by a collaborator outside this file (configuration
    read, staging directory, checkout), carried unchanged *)
| ExternalError (what : string).

Inductive Fallible (A : Type) :=
| Ok (a : A)
| Err (e : ErrorKind).
Arguments Ok {A} a.
Arguments Err {A} e.

(** Rust's [?] operator. *)
Definition bind {A B} (m : Fallible A) (k : A -> Fallible B) : Fallible B :=
  match m with
  | Ok a => k a
  | Err e => Err e
  end.

Notation "x <- m ;; k" := (bind m (fun x => k))
  (at level 61, m at next level, right associativity).

(* ------------------------------------------------------------------ *)
(** ** Tool specs ([crate::tool::Spec]) *)

Inductive VersionSpec :=
| Unspecified
| Request (req : string).

Inductive Spec :=
| Node (v : VersionSpec)
| Npm (v : VersionSpec)
| Yarn (v : VersionSpec)
| Package (name : string) (v : VersionSpec).

(** Position of the last ['@'] at an index greater than 0. *)
Fixpoint rindex_at (s : string) (pos : nat) : option nat :=
  match s with
  | EmptyString => None
  | String c rest =>
      match rindex_at rest (S pos) with
      | Some i => Some i
      | None => if Ascii.eqb c "@"%char && Nat.ltb 0 pos then Some pos else None
      end
  end.

(** Modelled from the spec: [Spec::try_from_str] (crate::tool, not under
    src/). "Recognizes the reserved names for the core tools; anything else
    becomes Package. Splits on the last @ that is not position 0 to separate
    name from version request; an absent or empty version request is
    normalized to unspecified. Fails with ParseError only on structurally
    invalid tokens (e.g., empty name)." *)
Definition Spec_try_from_str (tool_spec : string) : Fallible Spec :=
  let '(name, version) :=
    match rindex_at tool_spec 0 with
    | Some i => (substring 0 i tool_spec,
                 substring (S i) (String.length tool_spec - S i) tool_spec)
    | None => (tool_spec, EmptyString)
    end in
  let v := if String.eqb version "" then Unspecified else Request version in
  if String.eqb name "" then Err (ParseToolSpecError tool_spec)
  else if String.eqb name "node" then Ok (Node v)
  else if String.eqb name "npm" then Ok (Npm v)
  else if String.eqb name "yarn" then Ok (Yarn v)
  else Ok (Package name v).

(* ------------------------------------------------------------------ *)
(** ** [check_npm_install] *)

Inductive CommandArg :=
| GlobalAdd (tool : Spec)
| NotGlobalAdd.

(** [arg == "-g" || arg == "--global"] *)
Definition is_global_flag (arg : OsString) : bool :=
  os_eq arg "-g" || os_eq arg "--global".

(** The filter's predicate: flags are dropped, non-UTF-8 arguments kept. *)
Definition not_flag (arg : OsString) : bool :=
  match to_str arg with
  | Some s => negb (starts_with s "-"%char)
  | None => true
  end.

Definition is_install_alias (cmd : OsString) : bool :=
  os_eq cmd "install" || os_eq cmd "i" || os_eq cmd "add" || os_eq cmd "isntall".

Definition check_npm_install (args : list OsString) : CommandArg :=
  if negb (existsb is_global_flag args) then NotGlobalAdd
  else
    let filtered := filter not_flag args in
    match filtered with
    | cmd :: package :: _ =>
        if is_install_alias cmd then
          match Spec_try_from_str (to_string_lossy package) with
          | Ok tool => GlobalAdd tool
          | Err _ => NotGlobalAdd
          end
        else NotGlobalAdd
    | _ => NotGlobalAdd
    end.

Example check_install_lodash :
  check_npm_install [os "install"; os "-g"; os "lodash"]
  = GlobalAdd (Package "lodash" Unspecified).
Proof. reflexivity. Qed.

Example check_add_typescript :
  check_npm_install [os "-g"; os "add"; os "typescript@5.0.0"]
  = GlobalAdd (Package "typescript" (Request "5.0.0")).
Proof. reflexivity. Qed.

Example check_npm9 :
  check_npm_install [os "i"; os "-g"; os "npm@9"] = GlobalAdd (Npm (Request "9")).
Proof. reflexivity. Qed.

Example check_scoped :
  check_npm_install [os "i"; os "--global"; os "@scope/pkg@1"]
  = GlobalAdd (Package "@scope/pkg" (Request "1")).
Proof. reflexivity. Qed.

Example check_run_build :
  check_npm_install [os "run"; os "build"] = NotGlobalAdd.
Proof. reflexivity. Qed.

Example utf8_examples :
  utf8_valid [xc3; xa9] = true /\ utf8_valid [xc3] = false
  /\ utf8_valid [xed; xa0; x80] = false /\ utf8_valid [xf0; x9f; x98; x80] = true
  /\ lossy_fuel 3 [x61; xff; x62] = [x61; xef; xbf; xbd; x62].
Proof. vm_compute. repeat split. Qed.

(* ------------------------------------------------------------------ *)
(** ** Platforms ([crate::platform]) *)

Inductive Source := Default | Project | Binary | CommandLine.

Record Sourced (A : Type) := { value : A; source : Source }.
Arguments value {A} s.
Arguments source {A} s.

Definition with_default {A} (v : A) : Sourced A := {| value := v; source := Default |}.
Definition with_project {A} (v : A) : Sourced A := {| value := v; source := Project |}.

(** Versions of the pinned or default tools, as read from configuration. *)
Record PlatformSpec := {
  spec_node : string;
  spec_npm : option string;
  spec_yarn : option string
}.

Record Platform := {
  node : Sourced string;
  npm : option (Sourced string);
  yarn : option (Sourced string)
}.

(** Modelled from the spec: [PlatformSpec::as_default] (crate::platform, not
    under src/), the "default()-narrowed" platform: every version is tagged
    with the default source. *)
Definition as_default (p : PlatformSpec) : Platform :=
  {| node := with_default (spec_node p);
     npm := option_map with_default (spec_npm p);
     yarn := option_map with_default (spec_yarn p) |}.

Definition as_project (p : PlatformSpec) : Platform :=
  {| node := with_project (spec_node p);
     npm := option_map with_project (spec_npm p);
     yarn := option_map with_project (spec_yarn p) |}.

(** Modelled from the spec: [Session] (crate::session, not under src/). Its
    two queries are reads of persisted configuration that may fail; the
    record holds their outcomes. *)
Record Session := {
  project_platform : Fallible (option PlatformSpec);
  default_platform : Fallible (option PlatformSpec)
}.

(** Modelled from the spec: [Platform::current] (crate::platform, not under
    src/): "project-pinned platform if the working context has one, else
    falls back to default, else none". *)
Definition Platform_current (session : Session) : Fallible (option Platform) :=
  pp <- project_platform session ;;
  match pp with
  | Some p => Ok (Some (as_project p))
  | None =>
      dp <- default_platform session ;;
      Ok (option_map as_default dp)
  end.

(** Checked-out toolchain image. *)
Record Image := { image_platform : Platform }.

(** Outcomes of the file-system collaborators that [command] and
    [execution_context] call ([Platform::checkout], [Image::path],
    [System::path], and the staging of a package install). *)
Record Env := {
  env_staging : Fallible unit;
  env_checkout : Platform -> Fallible Image;
  env_image_path : Image -> Fallible OsString;
  env_system_path : Fallible OsString
}.

(* ------------------------------------------------------------------ *)
(** ** Executors ([super::executor]) *)

Module PackageManager.
Inductive t := Npm | Pnpm | Yarn.
End PackageManager.

Module ToolKind.
Inductive t := Node | Npm | Npx | Pnpm | Yarn.
End ToolKind.

Record ToolCommand := {
  tool_exe : string;
  tool_args : list OsString;
  tool_platform : option Platform;
  tool_kind : ToolKind.t
}.

Record PackageInstallCommand := {
  install_package : string;
  install_args : list OsString;
  install_platform : Platform;
  install_manager : PackageManager.t
}.

Record InternalInstallCommand := { internal_tool : Spec }.

Inductive Executor :=
| Tool (cmd : ToolCommand)
| PackageInstall (cmd : PackageInstallCommand)
| InternalInstall (cmd : InternalInstallCommand).

(** Modelled from the spec: [ToolCommand::new] (executor module, not under
    src/) bundles the executable name, the original arguments, the platform
    and the tool kind. *)
Definition ToolCommand_new (exe : string) (args : list OsString)
    (platform : option Platform) (kind : ToolKind.t) : ToolCommand :=
  {| tool_exe := exe; tool_args := args; tool_platform := platform; tool_kind := kind |}.

(** Modelled from the spec: [PackageInstallCommand::new] (executor module,
    not under src/) bundles the package name, the original arguments, the
    platform and the manager. The call site propagates its failure with [?];
    that failure (setting up the install's staging area) is an outcome of
    the environment. *)
Definition PackageInstallCommand_new (env : Env) (name : string)
    (args : list OsString) (platform : Platform) (manager : PackageManager.t)
    : Fallible PackageInstallCommand :=
  _ <- env_staging env ;;
  Ok {| install_package := name; install_args := args;
        install_platform := platform; install_manager := manager |}.

(** Modelled from the spec: [InternalInstallCommand::new]. *)
Definition InternalInstallCommand_new (tool : Spec) : InternalInstallCommand :=
  {| internal_tool := tool |}.

(* ------------------------------------------------------------------ *)
(** ** [command] and [execution_context] *)

(** The pass-through tail of [command] (lines 36-38). *)
Definition npm_tool_command (args : list OsString) (session : Session)
    : Fallible Executor :=
  platform <- Platform_current session ;;
  Ok (Tool (ToolCommand_new "npm" args platform ToolKind.Npm)).

Definition command (args : list OsString) (session : Session) (env : Env)
    : Fallible Executor :=
  match check_npm_install args with
  | GlobalAdd (Package name _) =>
      dp <- default_platform session ;;
      match dp with
      | Some default_platform =>
          let platform := as_default default_platform in
          cmd <- PackageInstallCommand_new env name args platform PackageManager.Npm ;;
          Ok (PackageInstall cmd)
      | None => npm_tool_command args session
      end
  | GlobalAdd tool => Ok (InternalInstall (InternalInstallCommand_new tool))
  | NotGlobalAdd => npm_tool_command args session
  end.

Definition execution_context (platform : option Platform) (env : Env)
    : Fallible (OsString * ErrorKind) :=
  match platform with
  | Some plat =>
      image <- env_checkout env plat ;;
      path <- env_image_path env image ;;
      Ok (path, BinaryExecError)
  | None =>
      path <- env_system_path env ;;
      Ok (path, NoPlatform)
  end.

(** Concrete sessions and environments. *)
Definition ps_18 : PlatformSpec :=
  {| spec_node := "18.0.0"; spec_npm := Some "9.0.0"%string; spec_yarn := None |}.

Definition session_with (default : option PlatformSpec) : Session :=
  {| project_platform := Ok None; default_platform := Ok default |}.

Definition env_ok : Env :=
  {| env_staging := Ok tt;
     env_checkout := fun p => Ok {| image_platform := p |};
     env_image_path := fun _ => Ok (os "/volta/image/bin");
     env_system_path := Ok (os "/usr/bin") |}.

Example command_lodash_default :
  command [os "install"; os "-g"; os "lodash"] (session_with (Some ps_18)) env_ok
  = Ok (PackageInstall {| install_package := "lodash";
                          install_args := [os "install"; os "-g"; os "lodash"];
                          install_platform := as_default ps_18;
                          install_manager := PackageManager.Npm |}).
Proof. reflexivity. Qed.

Example command_lodash_none :
  command [os "install"; os "-g"; os "lodash"] (session_with None) env_ok
  = Ok (Tool (ToolCommand_new "npm" [os "install"; os "-g"; os "lodash"] None ToolKind.Npm)).
Proof. reflexivity. Qed.

(* ------------------------------------------------------------------ *)
(** ** Helper lemmas *)

Lemma os_eq_spec (a : OsString) (s : string) : os_eq a s = true <-> a = os s.
Proof.
  unfold os_eq. destruct (list_eq_dec byte_eq_dec a (os s)); split; congruence.
Qed.

Lemma is_global_flag_spec (a : OsString) :
  is_global_flag a = true <-> a = os "-g" \/ a = os "--global".
Proof.
  unfold is_global_flag. rewrite orb_true_iff, !os_eq_spec. tauto.
Qed.

Lemma existsb_global_spec (args : list OsString) :
  existsb is_global_flag args = true
  <-> exists a, In a args /\ (a = os "-g" \/ a = os "--global").
Proof.
  rewrite existsb_exists.
  split; intros [a [Hin Ha]]; exists a; split; auto; apply is_global_flag_spec; auto.
Qed.

Lemma trigger_is_flag (a : OsString) :
  is_global_flag a = true -> not_flag a = false.
Proof.
  intros H. apply is_global_flag_spec in H as [-> | ->]; vm_compute; reflexivity.
Qed.

Lemma is_install_alias_spec (cmd : OsString) :
  is_install_alias cmd = true <-> In cmd [os "install"; os "i"; os "add"; os "isntall"].
Proof.
  unfold is_install_alias. rewrite !orb_true_iff, !os_eq_spec. simpl.
  split; intros; intuition congruence.
Qed.

(** [check_npm_install] as a function of the presence of a trigger and of
    the first two non-flag arguments. *)
Definition classify_view (global : bool) (first_two : list OsString) : CommandArg :=
  if negb global then NotGlobalAdd
  else
    match first_two with
    | cmd :: package :: _ =>
        if is_install_alias cmd then
          match Spec_try_from_str (to_string_lossy package) with
          | Ok tool => GlobalAdd tool
          | Err _ => NotGlobalAdd
          end
        else NotGlobalAdd
    | _ => NotGlobalAdd
    end.

Lemma check_npm_install_view (args : list OsString) :
  check_npm_install args
  = classify_view (existsb is_global_flag args) (firstn 2 (filter not_flag args)).
Proof.
  unfold check_npm_install, classify_view.
  destruct (filter not_flag args) as [| x [| y r]]; reflexivity.
Qed.

(* ------------------------------------------------------------------ *)
(** ** Classification *)

(** C2: with a [-g]/[--global] argument, an install alias as the first
    non-flag argument and a second non-flag argument that parses as a tool
    spec, the classification is [GlobalAdd] of exactly that spec; the parser
    gives core-tool names their own variants and never a [Package] named
    after a core tool. *)
Theorem check_npm_install_global_add (args : list OsString)
    (cmd package : OsString) (rest : list OsString) (tool : Spec)
    (Hg : exists a, In a args /\ (a = os "-g" \/ a = os "--global"))
    (Hf : filter not_flag args = cmd :: package :: rest)
    (Hc : In cmd [os "install"; os "i"; os "add"; os "isntall"])
    (Hp : Spec_try_from_str (to_string_lossy package) = Ok tool) :
  check_npm_install args = GlobalAdd tool
  /\ (forall s name v, Spec_try_from_str s = Ok (Package name v) ->
        name <> "node"%string /\ name <> "npm"%string /\ name <> "yarn"%string).
Proof.
  split.
  - unfold check_npm_install.
    apply existsb_global_spec in Hg. rewrite Hg, Hf. simpl.
    apply is_install_alias_spec in Hc. rewrite Hc, Hp. reflexivity.
  - intros s name v H. unfold Spec_try_from_str in H.
    destruct (match rindex_at s 0 with
              | Some i => _ | None => _ end) as [n ver].
    destruct (String.eqb n "") eqn:E0; [discriminate|].
    destruct (String.eqb n "node") eqn:E1; [discriminate|].
    destruct (String.eqb n "npm") eqn:E2; [discriminate|].
    destruct (String.eqb n "yarn") eqn:E3; [discriminate|].
    injection H as <- _.
    repeat split; intros ->; discriminate.
Qed.

Lemma check_npm_install_global_add_witness :
  check_npm_install [os "i"; os "-g"; os "npm@9"] = GlobalAdd (Npm (Request "9")).
Proof.
  apply (check_npm_install_global_add [os "i"; os "-g"; os "npm@9"]
           (os "i") (os "npm@9") []).
  - exists (os "-g"). simpl. auto.
  - vm_compute. reflexivity.
  - simpl. auto.
  - vm_compute. reflexivity.
Defined.

(** C3: without an argument equal to [-g] or [--global] the classification
    is [NotGlobalAdd], whatever the other arguments. *)
Theorem check_npm_install_no_global (args : list OsString)
    (H : forall a, In a args -> a <> os "-g" /\ a <> os "--global") :
  check_npm_install args = NotGlobalAdd.
Proof.
  unfold check_npm_install.
  destruct (existsb is_global_flag args) eqn:E; [|reflexivity].
  apply existsb_global_spec in E as [a [Hin Ha]].
  destruct (H a Hin). tauto.
Qed.

Lemma check_npm_install_no_global_witness :
  check_npm_install [os "install"; os "lodash"] = NotGlobalAdd.
Proof.
  apply check_npm_install_no_global.
  intros a Hin. simpl in Hin.
  destruct Hin as [<- | [<- | []]]; split; vm_compute; discriminate.
Defined.

(** C5: when the second non-flag argument does not parse as a tool spec,
    the classification is [NotGlobalAdd]: the parse error is absorbed (the
    result type has no error case). *)
Theorem check_npm_install_parse_error (args : list OsString)
    (cmd package : OsString) (rest : list OsString) (e : ErrorKind)
    (Hf : filter not_flag args = cmd :: package :: rest)
    (Hp : Spec_try_from_str (to_string_lossy package) = Err e) :
  check_npm_install args = NotGlobalAdd.
Proof.
  unfold check_npm_install. rewrite Hf.
  destruct (negb (existsb is_global_flag args)); [reflexivity|].
  destruct (is_install_alias cmd); [rewrite Hp|]; reflexivity.
Qed.

Lemma check_npm_install_parse_error_witness :
  check_npm_install [os "install"; os "-g"; os ""] = NotGlobalAdd.
Proof.
  apply (check_npm_install_parse_error _ (os "install") (os "") []
           (ParseToolSpecError "")); vm_compute; reflexivity.
Defined.

(** C10: the trigger is whole-argument equality with [-g] or [--global];
    arguments that only contain or extend them do not trigger; and the
    triggers are themselves flags, so they never reach the subcommand or
    package position. *)
Theorem global_trigger_whole_token (args : list OsString) :
  (existsb is_global_flag args = true
   <-> exists a, In a args /\ (a = os "-g" \/ a = os "--global"))
  /\ (forall a, In a (filter not_flag args) -> a <> os "-g" /\ a <> os "--global")
  /\ is_global_flag (os "--global-style") = false
  /\ is_global_flag (os "-gf") = false
  /\ is_global_flag (os "--no-global") = false.
Proof.
  split; [apply existsb_global_spec|].
  split; [|vm_compute; auto].
  intros a Hin. apply filter_In in Hin as [_ Hnf].
  split; intros ->; vm_compute in Hnf; discriminate.
Qed.

(** C7: the classification is a function of whether a trigger is present
    and of the first two non-flag arguments; with fewer than two non-flag
    arguments, or a first one that is no install alias, it is
    [NotGlobalAdd]; inserting a flag anywhere (a further trigger, or any
    other flag) leaves it unchanged, and so does appending arguments after
    two non-flag arguments are present (the triggers being the tokens the
    classification reads, the statements leave the presence of a trigger
    unchanged). *)
Theorem check_npm_install_first_two :
  (forall args1 args2,
     existsb is_global_flag args1 = existsb is_global_flag args2 ->
     firstn 2 (filter not_flag args1) = firstn 2 (filter not_flag args2) ->
     check_npm_install args1 = check_npm_install args2)
  /\ (forall args, length (filter not_flag args) < 2 ->
        check_npm_install args = NotGlobalAdd)
  /\ (forall args cmd rest, filter not_flag args = cmd :: rest ->
        is_install_alias cmd = false -> check_npm_install args = NotGlobalAdd)
  /\ (forall l1 f l2, not_flag f = false ->
        (is_global_flag f = false \/ existsb is_global_flag (l1 ++ l2) = true) ->
        check_npm_install (l1 ++ f :: l2) = check_npm_install (l1 ++ l2))
  /\ (forall args extra, 2 <= length (filter not_flag args) ->
        (existsb is_global_flag args = true \/ existsb is_global_flag extra = false) ->
        check_npm_install (args ++ extra) = check_npm_install args).
Proof.
  assert (Hfun : forall args1 args2,
     existsb is_global_flag args1 = existsb is_global_flag args2 ->
     firstn 2 (filter not_flag args1) = firstn 2 (filter not_flag args2) ->
     check_npm_install args1 = check_npm_install args2).
  { intros a1 a2 Hg Hf. rewrite !check_npm_install_view, Hg, Hf. reflexivity. }
  split; [exact Hfun|].
  split.
  { intros args Hl. unfold check_npm_install.
    destruct (negb (existsb is_global_flag args)); [reflexivity|].
    destruct (filter not_flag args) as [| x [| y r]]; simpl in Hl;
      [reflexivity | reflexivity | lia]. }
  split.
  { intros args cmd rest Hf Hc. unfold check_npm_install. rewrite Hf.
    destruct (negb (existsb is_global_flag args)); [reflexivity|].
    destruct rest; [reflexivity|]. rewrite Hc. reflexivity. }
  split.
  { intros l1 f l2 Hnf Hg. apply Hfun.
    - rewrite !existsb_app. simpl.
      destruct Hg as [Hg | Hg]; [rewrite Hg; reflexivity|].
      rewrite existsb_app in Hg.
      destruct (existsb is_global_flag l1), (is_global_flag f),
        (existsb is_global_flag l2); simpl in *; congruence.
    - rewrite !filter_app. simpl. rewrite Hnf. reflexivity. }
  { intros args extra Hl Hg. apply Hfun.
    - rewrite existsb_app.
      destruct Hg as [Hg | Hg]; rewrite Hg; [reflexivity|].
      apply orb_false_r.
    - rewrite filter_app.
      destruct (filter not_flag args) as [| x [| y r]]; simpl in Hl; [lia | lia|].
      reflexivity. }
Qed.

Lemma check_npm_install_first_two_witness :
  check_npm_install ([os "install"; os "-g"; os "lodash"] ++ [os "install"; os "--force"])
  = check_npm_install [os "install"; os "-g"; os "lodash"].
Proof.
  destruct check_npm_install_first_two as [_ [_ [_ [_ H]]]].
  apply H; [vm_compute; lia | left; vm_compute; reflexivity].
Defined.

(** C9: the classification is a function of the argument list alone (its
    type has no session, environment or state): equal argument lists are
    classified identically. *)
Theorem check_npm_install_deterministic (args1 args2 : list OsString)
    (H : args1 = args2) :
  check_npm_install args1 = check_npm_install args2.
Proof. subst. reflexivity. Qed.

Lemma check_npm_install_deterministic_witness :
  check_npm_install [os "-g"; os "add"; os "typescript@5.0.0"]
  = check_npm_install [os "-g"; os "add"; os "typescript@5.0.0"].
Proof. apply check_npm_install_deterministic. reflexivity. Defined.

(* ------------------------------------------------------------------ *)
(** ** Dispatch *)

(** C1: for a global add of a package, a default platform [p] yields a
    [PackageInstallCommand] with platform [as_default p], the original
    arguments and the npm manager (the only possible error being the one of
    the install command's own set-up, passed on unchanged); no default
    platform falls through to the pass-through [ToolCommand] built from the
    current platform, whose only possible error is the one of the platform
    lookup; an error reading the default platform is passed on unchanged. *)
Theorem command_global_package (args : list OsString) (name : string)
    (v : VersionSpec) (session : Session) (env : Env)
    (Hc : check_npm_install args = GlobalAdd (Package name v)) :
  (forall p, default_platform session = Ok (Some p) ->
     command args session env
     = match env_staging env with
       | Ok _ => Ok (PackageInstall {| install_package := name;
                                       install_args := args;
                                       install_platform := as_default p;
                                       install_manager := PackageManager.Npm |})
       | Err e => Err e
       end)
  /\ (default_platform session = Ok None ->
      command args session env
      = match Platform_current session with
        | Ok platform => Ok (Tool (ToolCommand_new "npm" args platform ToolKind.Npm))
        | Err e => Err e
        end)
  /\ (forall e, default_platform session = Err e -> command args session env = Err e).
Proof.
  unfold command. rewrite Hc.
  split; [|split].
  - intros p Hp. rewrite Hp. simpl.
    unfold PackageInstallCommand_new. destruct (env_staging env); reflexivity.
  - intros Hp. rewrite Hp. simpl. unfold npm_tool_command.
    destruct (Platform_current session); reflexivity.
  - intros e Hp. rewrite Hp. reflexivity.
Qed.

Lemma command_global_package_witness :
  command [os "install"; os "-g"; os "lodash"] (session_with None) env_ok
  = Ok (Tool (ToolCommand_new "npm" [os "install"; os "-g"; os "lodash"] None ToolKind.Npm)).
Proof.
  destruct (command_global_package [os "install"; os "-g"; os "lodash"] "lodash"
              Unspecified (session_with None) env_ok) as [_ [H _]];
    [vm_compute; reflexivity|].
  rewrite H by reflexivity. reflexivity.
Defined.

(** C4: a global add of Node, npm or Yarn yields
    [InternalInstallCommand(spec)] whatever the session and environment: no
    platform is read. *)
Theorem command_core_tool (args : list OsString) (tool : Spec)
    (Hc : check_npm_install args = GlobalAdd tool)
    (Hcore : match tool with Package _ _ => False | _ => True end) :
  forall session env,
    command args session env = Ok (InternalInstall {| internal_tool := tool |}).
Proof.
  intros session env. unfold command. rewrite Hc.
  destruct tool; [reflexivity | reflexivity | reflexivity | contradiction].
Qed.

Lemma command_core_tool_witness :
  command [os "i"; os "-g"; os "npm@9"]
    {| project_platform := Err (ExternalError "config"); default_platform := Err (ExternalError "config") |}
    env_ok
  = Ok (InternalInstall {| internal_tool := Npm (Request "9") |}).
Proof.
  apply (command_core_tool _ (Npm (Request "9"))); [vm_compute; reflexivity | exact I].
Defined.

(** C8: every pass-through outcome runs [npm] with the original argument
    list, unchanged; the package-install outcome carries it unchanged too. *)
Theorem command_preserves_args (args : list OsString) (session : Session) (env : Env) :
  (forall tc, command args session env = Ok (Tool tc) ->
     tool_args tc = args /\ tool_exe tc = "npm"%string)
  /\ (forall pc, command args session env = Ok (PackageInstall pc) ->
        install_args pc = args).
Proof.
  assert (Htool : forall tc, npm_tool_command args session = Ok (Tool tc) ->
                             tool_args tc = args /\ tool_exe tc = "npm"%string).
  { intros tc H. unfold npm_tool_command in H.
    destruct (Platform_current session); simpl in H; [|discriminate].
    injection H as <-. split; reflexivity. }
  assert (Hpkg : forall pc, npm_tool_command args session <> Ok (PackageInstall pc)).
  { intros pc H. unfold npm_tool_command in H.
    destruct (Platform_current session); simpl in H; discriminate. }
  unfold command. split; intros c H.
  - destruct (check_npm_install args) as [[| | | name v] |]; try discriminate; auto.
    destruct (default_platform session) as [[p|] |]; simpl in H; auto; try discriminate.
    unfold PackageInstallCommand_new in H.
    destruct (env_staging env); simpl in H; discriminate.
  - destruct (check_npm_install args) as [[| | | name v] |]; try discriminate;
      try (exfalso; eapply Hpkg; eassumption).
    destruct (default_platform session) as [[p|] |]; simpl in H; try discriminate;
      try (exfalso; eapply Hpkg; eassumption).
    unfold PackageInstallCommand_new in H.
    destruct (env_staging env); simpl in H; [|discriminate].
    injection H as <-. reflexivity.
Qed.

Lemma command_preserves_args_witness :
  tool_args (ToolCommand_new "npm" [os "run"; os "-g"; os "build"] None ToolKind.Npm)
  = [os "run"; os "-g"; os "build"].
Proof.
  destruct (command_preserves_args [os "run"; os "-g"; os "build"] (session_with None) env_ok)
    as [H _].
  apply (H (ToolCommand_new "npm" [os "run"; os "-g"; os "build"] None ToolKind.Npm)).
  vm_compute. reflexivity.
Defined.

(* ------------------------------------------------------------------ *)
(** ** Execution context *)

(** C6: without a platform, a successful [execution_context] returns the
    system search path with [NoPlatform]; with a platform, the checked-out
    image's path with [BinaryExecError]. *)
Theorem execution_context_error_kind (env : Env) :
  (forall path kind, execution_context None env = Ok (path, kind) ->
     env_system_path env = Ok path /\ kind = NoPlatform)
  /\ (forall p path kind, execution_context (Some p) env = Ok (path, kind) ->
        exists image, env_checkout env p = Ok image
                      /\ env_image_path env image = Ok path
                      /\ kind = BinaryExecError).
Proof.
  unfold execution_context. split.
  - intros path kind H.
    destruct (env_system_path env); simpl in H; [|discriminate].
    injection H as <- <-. auto.
  - intros p path kind H.
    destruct (env_checkout env p) as [image|]; simpl in H; [|discriminate].
    exists image.
    destruct (env_image_path env image); simpl in H; [|discriminate].
    injection H as <- <-. auto.
Qed.

Lemma execution_context_error_kind_witness :
  env_system_path env_ok = Ok (os "/usr/bin") /\ NoPlatform = NoPlatform.
Proof.
  destruct (execution_context_error_kind env_ok) as [H _].
  apply H. reflexivity.
Defined.

(* ------------------------------------------------------------------ *)
(** ** Further properties of the code *)

Lemma lossy_fuel_valid (f : nat) (bs : list byte) :
  utf8_valid_fuel f bs = true -> lossy_fuel f bs = bs.
Proof.
  revert bs. induction f as [| f IH]; intros bs H; destruct bs as [| b bs];
    cbn [utf8_valid_fuel lossy_fuel] in *; try reflexivity; try discriminate.
  destruct (utf8_next (b :: bs)) as [ok n] eqn:E.
  apply andb_true_iff in H as [Hok Hrest]. subst ok.
  rewrite (IH _ Hrest). apply firstn_skipn.
Qed.

Lemma os_eq_valid (a : OsString) (s : string) :
  os_eq a s = true -> utf8_valid a = utf8_valid (os s).
Proof. intros H. apply os_eq_spec in H. subst. reflexivity. Qed.

Lemma not_flag_invalid (a : OsString) : utf8_valid a = false -> not_flag a = true.
Proof. intros H. unfold not_flag, to_str. rewrite H. reflexivity. Qed.

Lemma is_global_flag_invalid (a : OsString) :
  utf8_valid a = false -> is_global_flag a = false.
Proof.
  intros H. unfold is_global_flag.
  destruct (os_eq a "-g") eqn:E1; [apply os_eq_valid in E1; rewrite E1 in H; discriminate|].
  destruct (os_eq a "--global") eqn:E2; [apply os_eq_valid in E2; rewrite E2 in H; discriminate|].
  reflexivity.
Qed.

Lemma is_install_alias_invalid (a : OsString) :
  utf8_valid a = false -> is_install_alias a = false.
Proof.
  intros H. unfold is_install_alias.
  repeat match goal with
  | |- context [os_eq a ?s] =>
      let E := fresh "E" in
      destruct (os_eq a s) eqn:E;
      [apply os_eq_valid in E; rewrite E in H; vm_compute in H; discriminate|]
  end.
  reflexivity.
Qed.

(** X1: an argument that is not valid UTF-8 is never a trigger and is never
    dropped as a flag: it stays a candidate subcommand or package. *)
Theorem non_utf8_arg_kept (a : OsString) (H : utf8_valid a = false) :
  is_global_flag a = false /\ not_flag a = true
  /\ (forall l1 l2, filter not_flag (l1 ++ a :: l2)
                    = filter not_flag l1 ++ a :: filter not_flag l2).
Proof.
  split; [apply is_global_flag_invalid; exact H|].
  split; [apply not_flag_invalid; exact H|].
  intros l1 l2. rewrite filter_app. simpl. rewrite (not_flag_invalid a H). reflexivity.
Qed.

Lemma non_utf8_arg_kept_witness :
  is_global_flag [xff; x67] = false /\ not_flag [xff; x67] = true
  /\ (forall l1 l2, filter not_flag (l1 ++ [xff; x67] :: l2)
                    = filter not_flag l1 ++ [xff; x67] :: filter not_flag l2).
Proof. apply non_utf8_arg_kept. vm_compute. reflexivity. Defined.

(** X2: when the first non-flag argument is not valid UTF-8 it is no install
    alias, and the classification is [NotGlobalAdd]. *)
Theorem check_npm_install_non_utf8_command (args : list OsString)
    (cmd : OsString) (rest : list OsString)
    (Hf : filter not_flag args = cmd :: rest) (Hv : utf8_valid cmd = false) :
  check_npm_install args = NotGlobalAdd.
Proof.
  unfold check_npm_install. rewrite Hf.
  destruct (negb (existsb is_global_flag args)); [reflexivity|].
  destruct rest; [reflexivity|]. rewrite (is_install_alias_invalid cmd Hv). reflexivity.
Qed.

Lemma check_npm_install_non_utf8_command_witness :
  check_npm_install [[xff]; os "-g"; os "lodash"] = NotGlobalAdd.
Proof.
  apply (check_npm_install_non_utf8_command _ [xff] [os "lodash"]);
    vm_compute; reflexivity.
Defined.

(** X3: for a package argument that is valid UTF-8, the text handed to the
    tool-spec parser ([to_string_lossy]) is the argument's own text
    ([to_str]): nothing is replaced. *)
Theorem package_text_unchanged (a : OsString) (s : string)
    (H : to_str a = Some s) :
  to_string_lossy a = s.
Proof.
  unfold to_str in H. destruct (utf8_valid a) eqn:E; [|discriminate].
  injection H as <-. unfold to_string_lossy.
  rewrite (lossy_fuel_valid _ _ E). reflexivity.
Qed.

Lemma package_text_unchanged_witness :
  to_string_lossy [x63; xc3; xa9] = string_of_list_byte [x63; xc3; xa9].
Proof. apply package_text_unchanged. vm_compute. reflexivity. Defined.

(** X4: [GlobalAdd] is returned only when a trigger is present, the first
    non-flag argument is an install alias and the second one parses to
    exactly the returned spec. *)
Theorem check_npm_install_global_add_inv (args : list OsString) (tool : Spec)
    (H : check_npm_install args = GlobalAdd tool) :
  existsb is_global_flag args = true
  /\ exists cmd package rest,
       filter not_flag args = cmd :: package :: rest
       /\ is_install_alias cmd = true
       /\ Spec_try_from_str (to_string_lossy package) = Ok tool.
Proof.
  unfold check_npm_install in H.
  destruct (existsb is_global_flag args); simpl in H; [|discriminate].
  split; [reflexivity|].
  destruct (filter not_flag args) as [| cmd [| package rest]]; try discriminate.
  exists cmd, package, rest. split; [reflexivity|].
  destruct (is_install_alias cmd); [|discriminate].
  destruct (Spec_try_from_str (to_string_lossy package)); [|discriminate].
  injection H as ->. auto.
Qed.

Lemma check_npm_install_global_add_inv_witness :
  existsb is_global_flag [os "add"; os "lodash"; os "--global"] = true
  /\ exists cmd package rest,
       filter not_flag [os "add"; os "lodash"; os "--global"] = cmd :: package :: rest
       /\ is_install_alias cmd = true
       /\ Spec_try_from_str (to_string_lossy package) = Ok (Package "lodash" Unspecified).
Proof. apply check_npm_install_global_add_inv. vm_compute. reflexivity. Defined.

(** X5: the position of a flag in the argument list does not matter: moving
    any flag (a trigger included) to the front or to the end leaves the
    classification unchanged. *)
Theorem check_npm_install_flag_position (l1 l2 : list OsString) (f : OsString)
    (Hf : not_flag f = false) :
  check_npm_install (l1 ++ f :: l2) = check_npm_install (f :: l1 ++ l2)
  /\ check_npm_install (l1 ++ f :: l2) = check_npm_install (l1 ++ l2 ++ [f]).
Proof.
  rewrite !check_npm_install_view.
  assert (Hfl : forall l, filter not_flag (l ++ [f]) = filter not_flag l).
  { intros l. rewrite filter_app. simpl. rewrite Hf, app_nil_r. reflexivity. }
  split.
  - f_equal.
    + rewrite !existsb_app. simpl. rewrite existsb_app.
      destruct (is_global_flag f), (existsb is_global_flag l1),
        (existsb is_global_flag l2); reflexivity.
    + rewrite filter_app. simpl. rewrite Hf, filter_app. reflexivity.
  - f_equal.
    + rewrite !existsb_app. simpl.
      destruct (is_global_flag f), (existsb is_global_flag l1),
        (existsb is_global_flag l2); reflexivity.
    + rewrite app_assoc, Hfl, filter_app. simpl. rewrite Hf, filter_app. reflexivity.
Qed.

Lemma check_npm_install_flag_position_witness :
  check_npm_install ([os "install"] ++ os "-g" :: [os "lodash"])
  = check_npm_install (os "-g" :: [os "install"] ++ [os "lodash"])
  /\ check_npm_install ([os "install"] ++ os "-g" :: [os "lodash"])
     = check_npm_install ([os "install"] ++ [os "lodash"] ++ [os "-g"]).
Proof. apply check_npm_install_flag_position. vm_compute. reflexivity. Defined.

Lemma Spec_try_from_str_package_name (s : string) (name : string) (v : VersionSpec) :
  Spec_try_from_str s = Ok (Package name v) ->
  name <> "node"%string /\ name <> "npm"%string /\ name <> "yarn"%string.
Proof.
  intros H. unfold Spec_try_from_str in H.
  destruct (match rindex_at s 0 with
            | Some i => _ | None => _ end) as [n ver].
  destruct (String.eqb n "") eqn:E0; [discriminate|].
  destruct (String.eqb n "node") eqn:E1; [discriminate|].
  destruct (String.eqb n "npm") eqn:E2; [discriminate|].
  destruct (String.eqb n "yarn") eqn:E3; [discriminate|].
  injection H as <- _.
  apply String.eqb_neq in E1, E2, E3. auto.
Qed.

Ltac case_command H :=
  unfold command, npm_tool_command, PackageInstallCommand_new in H;
  repeat match type of H with
  | context [check_npm_install ?a] =>
      let E := fresh "Ec" in destruct (check_npm_install a) as [[| | | ? ?] |] eqn:E
  | context [default_platform ?s] =>
      let E := fresh "Ed" in destruct (default_platform s) as [[?|] | ?] eqn:E
  | context [env_staging ?e] =>
      let E := fresh "Es" in destruct (env_staging e) eqn:E
  | context [Platform_current ?s] =>
      let E := fresh "Ep" in destruct (Platform_current s) eqn:E
  | _ => progress (cbn [bind] in H)
  end;
  try discriminate.

(** X6: a [PackageInstallCommand] is built only for a global add of a
    package while a default platform exists: it names the classified
    package (never a core tool), runs npm, and carries the default platform
    tagged as default. *)
Theorem command_package_install_inv (args : list OsString) (session : Session)
    (env : Env) (pc : PackageInstallCommand)
    (H : command args session env = Ok (PackageInstall pc)) :
  exists v p,
    check_npm_install args = GlobalAdd (Package (install_package pc) v)
    /\ default_platform session = Ok (Some p)
    /\ install_platform pc = as_default p
    /\ install_manager pc = PackageManager.Npm
    /\ install_package pc <> "node"%string /\ install_package pc <> "npm"%string
    /\ install_package pc <> "yarn"%string.
Proof.
  case_command H.
  all: injection H as Hpc; subst pc; simpl.
  all: apply check_npm_install_global_add_inv in Ec as Hinv;
    destruct Hinv as [_ [c [pk [r [_ [_ Hp]]]]]];
    apply Spec_try_from_str_package_name in Hp as [H1 [H2 H3]];
    do 2 eexists; repeat split; eauto.
Qed.

Lemma command_package_install_inv_witness :
  exists v p,
    check_npm_install [os "i"; os "-g"; os "lodash"]
      = GlobalAdd (Package "lodash" v)
    /\ default_platform (session_with (Some ps_18)) = Ok (Some p)
    /\ as_default ps_18 = as_default p
    /\ PackageManager.Npm = PackageManager.Npm
    /\ "lodash"%string <> "node"%string /\ "lodash"%string <> "npm"%string
    /\ "lodash"%string <> "yarn"%string.
Proof.
  apply (command_package_install_inv [os "i"; os "-g"; os "lodash"]
           (session_with (Some ps_18)) env_ok
           {| install_package := "lodash"; install_args := [os "i"; os "-g"; os "lodash"];
              install_platform := as_default ps_18; install_manager := PackageManager.Npm |}).
  vm_compute. reflexivity.
Defined.

(** X7: an [InternalInstallCommand] is built only for a global add of Node,
    npm or Yarn classified from the arguments; never for a package. *)
Theorem command_internal_install_inv (args : list OsString) (session : Session)
    (env : Env) (ic : InternalInstallCommand)
    (H : command args session env = Ok (InternalInstall ic)) :
  check_npm_install args = GlobalAdd (internal_tool ic)
  /\ match internal_tool ic with Package _ _ => False | _ => True end.
Proof.
  case_command H; injection H as <-; simpl; auto.
Qed.

Lemma command_internal_install_inv_witness :
  check_npm_install [os "install"; os "--global"; os "node@20"]
    = GlobalAdd (Node (Request "20")) /\ True.
Proof.
  apply (command_internal_install_inv _ (session_with None) env_ok
           {| internal_tool := Node (Request "20") |}).
  vm_compute. reflexivity.
Defined.

(** X8: a pass-through [ToolCommand] is built only when the arguments are
    no global add, or a global add of a package with no default platform;
    it runs [npm] as the npm tool kind on the current platform. *)
Theorem command_tool_inv (args : list OsString) (session : Session)
    (env : Env) (tc : ToolCommand)
    (H : command args session env = Ok (Tool tc)) :
  (check_npm_install args = NotGlobalAdd
   \/ exists name v, check_npm_install args = GlobalAdd (Package name v)
                     /\ default_platform session = Ok None)
  /\ Platform_current session = Ok (tool_platform tc)
  /\ tool_kind tc = ToolKind.Npm.
Proof.
  case_command H; injection H as <-; simpl; eauto 7.
Qed.

Lemma command_tool_inv_witness :
  (check_npm_install [os "ls"; os "-g"] = NotGlobalAdd
   \/ exists name v, check_npm_install [os "ls"; os "-g"] = GlobalAdd (Package name v)
                     /\ default_platform (session_with (Some ps_18)) = Ok None)
  /\ Platform_current (session_with (Some ps_18)) = Ok (Some (as_default ps_18))
  /\ ToolKind.Npm = ToolKind.Npm.
Proof.
  apply (command_tool_inv [os "ls"; os "-g"] (session_with (Some ps_18)) env_ok
           (ToolCommand_new "npm" [os "ls"; os "-g"] (Some (as_default ps_18)) ToolKind.Npm)).
  vm_compute. reflexivity.
Defined.

(** X9: [command] raises no error of its own: every error it returns is the
    error of reading the default platform, of resolving the current
    platform, or of setting up the package install. *)
Theorem command_error_origin (args : list OsString) (session : Session)
    (env : Env) (e : ErrorKind)
    (H : command args session env = Err e) :
  default_platform session = Err e \/ Platform_current session = Err e
  \/ env_staging env = Err e.
Proof.
  case_command H; injection H as <-; auto.
Qed.

Lemma command_error_origin_witness :
  default_platform (session_with (Some ps_18)) = Err (ExternalError "staging")
  \/ Platform_current (session_with (Some ps_18)) = Err (ExternalError "staging")
  \/ env_staging {| env_staging := Err (ExternalError "staging");
                    env_checkout := env_checkout env_ok;
                    env_image_path := env_image_path env_ok;
                    env_system_path := env_system_path env_ok |}
     = Err (ExternalError "staging").
Proof.
  apply (command_error_origin [os "i"; os "-g"; os "lodash"]).
  vm_compute. reflexivity.
Defined.

(** X10: [execution_context] raises no error of its own: with a platform
    its errors are those of the checkout or of the image's path, without one
    that of the system path. *)
Theorem execution_context_error_origin (platform : option Platform) (env : Env)
    (e : ErrorKind) (H : execution_context platform env = Err e) :
  match platform with
  | Some p => env_checkout env p = Err e
              \/ exists image, env_checkout env p = Ok image
                               /\ env_image_path env image = Err e
  | None => env_system_path env = Err e
  end.
Proof.
  unfold execution_context in H. destruct platform as [p|].
  - destruct (env_checkout env p) as [image|] eqn:Ec; cbn [bind] in H.
    + right. exists image. split; [reflexivity|].
      destruct (env_image_path env image); cbn [bind] in H; congruence.
    + left. congruence.
  - destruct (env_system_path env); cbn [bind] in H; congruence.
Qed.

Lemma execution_context_error_origin_witness :
  env_system_path {| env_staging := Ok tt; env_checkout := env_checkout env_ok;
                     env_image_path := env_image_path env_ok;
                     env_system_path := Err (ExternalError "PATH") |}
  = Err (ExternalError "PATH").
Proof.
  apply (execution_context_error_origin None). reflexivity.
Defined.

(** X11: [command] composed with [execution_context]: for a pass-through
    command, a successful execution context reports [NoPlatform] exactly
    when no current platform resolved, and [BinaryExecError] otherwise. *)
Theorem command_then_execution_context (args : list OsString) (session : Session)
    (env : Env) (tc : ToolCommand) (path : OsString) (kind : ErrorKind)
    (Hc : command args session env = Ok (Tool tc))
    (He : execution_context (tool_platform tc) env = Ok (path, kind)) :
  (kind = NoPlatform <-> Platform_current session = Ok None)
  /\ (kind = BinaryExecError <-> exists p, Platform_current session = Ok (Some p)).
Proof.
  assert (Hp : Platform_current session = Ok (tool_platform tc)).
  { clear He. case_command Hc; injection Hc as <-; reflexivity. }
  rewrite Hp. unfold execution_context in He.
  destruct (tool_platform tc) as [p|].
  - destruct (env_checkout env p) as [image|]; cbn [bind] in He; [|discriminate].
    destruct (env_image_path env image); cbn [bind] in He; [|discriminate].
    injection He as _ <-.
    split; split; try discriminate; eauto.
  - destruct (env_system_path env); cbn [bind] in He; [|discriminate].
    injection He as _ <-.
    split; split; intros; try reflexivity; try discriminate.
    destruct H as [? ?]; discriminate.
Qed.

Lemma command_then_execution_context_witness :
  (NoPlatform = NoPlatform <-> Platform_current (session_with None) = Ok None)
  /\ (NoPlatform = BinaryExecError
      <-> exists p, Platform_current (session_with None) = Ok (Some p)).
Proof.
  apply (command_then_execution_context [os "run"; os "build"] (session_with None) env_ok
           (ToolCommand_new "npm" [os "run"; os "build"] None ToolKind.Npm)
           (os "/usr/bin")); vm_compute; reflexivity.
Defined.
